(** * The URL configuration of [myapp] (Class_01/myproject/myapp/urls.py)

    The module declares one value, [urlpatterns]: an ordered list of four
    routes built with the framework's [path(route, view, name=...)].  The
    list is read by the framework's URL resolver (forward lookup, from a
    request path to a view) and by its reverse lookup (from a route name
    to a path).  Both live in the framework, outside the repository; they
    are written out below the way the framework runs them on routes
    declared with [path] and a callable, so that the table can be
    exercised. *)

From Stdlib Require Import String Ascii List Permutation.
Import ListNotations.
Open Scope string_scope.
Open Scope list_scope.

(** ** Views

    A view is referred to by the module it is imported from and by its
    attribute name; the callables themselves are not part of urls.py. *)

Record view : Type := View { view_module : string; view_attr : string }.

(** [from . import views] *)
Module views.
Definition index : view := View "myapp.views" "index".
Definition htmlPage : view := View "myapp.views" "htmlPage".
(* named only on the commented-out line 7 *)
Definition dataRender2 : view := View "myapp.views" "dataRender2".
End views.

(** [from . TestView import test] *)
Module test.
Definition dataRender3 : view := View "myapp.TestView.test" "dataRender3".
Definition htmlPage2 : view := View "myapp.TestView.test" "htmlPage2".
End test.

(** ** Route entries *)

Record RouteEntry : Type := {
  pattern : string;        (* the route string given to [path] *)
  handler : view;          (* the callable bound to it *)
  name : option string     (* the keyword argument [name], None when omitted *)
}.

(** [path(route, view, kwargs=None, name=None)]: with a callable view the
    result is an endpoint pattern carrying the three arguments. *)
Definition path (route : string) (v : view) (nm : option string) : RouteEntry :=
  {| pattern := route; handler := v; name := nm |}.

(** ** The table (urls.py, lines 5 to 12) *)

Definition urlpatterns : list RouteEntry :=
  [ path "" views.index (Some "index");
    (* path('data-acces2', views.dataRender2, name='index2'),  is a comment *)
    path "data-access3" test.dataRender3 (Some "index3");
    path "html1" views.htmlPage (Some "html_page2");
    path "html2" test.htmlPage2 (Some "html_page3") ].

(** The entry that line 7 would declare if it were not a comment.  It is
    not an element of [urlpatterns]. *)
Definition disabled_entry : RouteEntry :=
  path "data-acces2" views.dataRender2 (Some "index2").

(** ** Forward lookup

    The resolver is the framework's, not the repository's: urls.py only
    hands it the table.  What follows is its behaviour on entries made
    by [path] with a callable, which is also what section 2 of the spec
    says of it ("scans entries in declaration order and invokes the
    first handler whose pattern matches the request path").

    A route given to [path] is literal unless it contains a converter,
    written [<conv:name>].  For a literal endpoint route the framework's
    [RoutePattern.match] succeeds exactly when the route equals the
    remaining path. *)

Fixpoint has_converter (route : string) : bool :=
  match route with
  | EmptyString => false
  | String c rest => Ascii.eqb c "<"%char || has_converter rest
  end.

(** [pattern.match(new_path)] for a literal route.  Routes with
    converters do not occur in the table ([urlpatterns_literal] below)
    and are given no meaning of their own here. *)
Definition route_match (e : RouteEntry) (new_path : string) : bool :=
  String.eqb (pattern e) new_path.

(** The test the resolver's loop applies to each entry in turn. *)
Definition matching (new_path : string) (e : RouteEntry) : bool :=
  route_match e new_path.

(** Outcome of [URLResolver.resolve]: the matching entry, or the
    [Resolver404] exception with the patterns that were tried. *)
Inductive resolution : Type :=
| Found (e : RouteEntry)
| Resolver404 (tried : list string).

(** The resolver's loop:
    [for pattern in self.url_patterns: sub_match = pattern.resolve(new_path);
     if sub_match: return ...; tried.append(pattern)] and, after the loop,
    [raise Resolver404({'tried': tried, ...})]. *)
Fixpoint resolve_from (tried : list string) (url_patterns : list RouteEntry)
    (new_path : string) : resolution :=
  match url_patterns with
  | [] => Resolver404 tried
  | e :: rest =>
      if route_match e new_path then Found e
      else resolve_from (tried ++ [pattern e]) rest new_path
  end.

Definition resolve (url_patterns : list RouteEntry) (new_path : string)
  : resolution :=
  resolve_from [] url_patterns new_path.

Definition found (r : resolution) : option RouteEntry :=
  match r with Found e => Some e | Resolver404 _ => None end.

(** The view that ends up being called: none on [Resolver404]. *)
Definition invoked (r : resolution) : option view :=
  option_map handler (found r).

(** Modelled from the spec: the project-level URL configuration that
    includes this table is not among the sources.  The spec pairs the
    request paths [/], [/data-access3], [/html1], [/html2] with the
    routes [''], ['data-access3'], ['html1'], ['html2'], so the table is
    mounted at the site root and only the leading slash is consumed
    before the table is scanned. *)
Definition mount_prefix : string := "/".

Fixpoint strip_prefix (pre s : string) : option string :=
  match pre with
  | EmptyString => Some s
  | String a pre' =>
      match s with
      | EmptyString => None
      | String b s' => if Ascii.eqb a b then strip_prefix pre' s' else None
      end
  end.

(** A request: the root resolver consumes the mount prefix, the table
    handles what is left; a path outside the prefix is not found. *)
Definition dispatch (table : list RouteEntry) (request_path : string)
  : option view :=
  match strip_prefix mount_prefix request_path with
  | Some new_path => invoked (resolve table new_path)
  | None => None
  end.

(** ** Reverse lookup

    Also the framework's.  It indexes the table by walking
    [reversed(url_patterns)] and appending each named entry to the list
    kept under its name; a lookup takes the first candidate of that
    list.  For a literal route the candidate is the route string itself,
    the "literal path string" of the spec's glossary. *)

Definition named (n : string) (e : RouteEntry) : bool :=
  match name e with
  | Some m => String.eqb m n
  | None => false
  end.

Definition reverse (table : list RouteEntry) (viewname : string)
  : option string :=
  option_map pattern (find (named viewname) (rev table)).

(** The URL handed back to the caller: the prefix the table is mounted
    under, then the route. *)
Definition reverse_url (table : list RouteEntry) (viewname : string)
  : option string :=
  option_map (String.append mount_prefix) (reverse table viewname).

(** The same lookup scanning in declaration order, for comparison. *)
Definition reverse_first (table : list RouteEntry) (viewname : string)
  : option string :=
  option_map pattern (find (named viewname) table).

(** ** The binding of [urlpatterns]

    Executing the module body is one assignment: whatever the name was
    bound to before, it is bound to the list afterwards. *)

Definition store : Type := list RouteEntry.
Definition M (A : Type) : Type := store -> A * store.

Definition put (t : store) : M unit := fun _ => (tt, t).

(** Executing the module body: the assignment [urlpatterns = [...]]. *)
Definition import_urls : M unit := put urlpatterns.

(** ** What the spec says the dispatcher does

    Modelled from the spec: section 2, word for word, to be compared
    with the loop of [resolve_from].  "scans entries in declaration order and invokes the first handler
    whose pattern matches the request path": the selected entry is one
    that matches and is preceded only by entries that do not; nothing is
    selected when no entry matches. *)
Inductive FirstMatch (table : list RouteEntry) (p : string)
  : option RouteEntry -> Prop :=
| first_match_at (before after : list RouteEntry) (e : RouteEntry) :
    table = before ++ e :: after ->
    Forall (fun e' => route_match e' p = false) before ->
    route_match e p = true ->
    FirstMatch table p (Some e)
| first_match_none :
    Forall (fun e' => route_match e' p = false) table ->
    FirstMatch table p None.

(** ** Trial runs *)

Example resolve_root :
  resolve urlpatterns "" = Found (path "" views.index (Some "index")).
Proof. reflexivity. Qed.

Example resolve_last_entry :
  invoked (resolve urlpatterns "html2") = Some test.htmlPage2.
Proof. reflexivity. Qed.

Example resolve_unknown_tries_all :
  resolve urlpatterns "html" =
  Resolver404 [""; "data-access3"; "html1"; "html2"].
Proof. reflexivity. Qed.

Example dispatch_without_slash : dispatch urlpatterns "html1" = None.
Proof. reflexivity. Qed.

Example dispatch_trailing_slash : dispatch urlpatterns "/html1/" = None.
Proof. reflexivity. Qed.

Example dispatch_upper_case : dispatch urlpatterns "/HTML1" = None.
Proof. reflexivity. Qed.

Example reverse_unknown : reverse urlpatterns "index2" = None.
Proof. reflexivity. Qed.

(** Order matters as soon as two entries share a pattern. *)
Example order_matters_with_equal_patterns :
  invoked (resolve [path "x" views.index None; path "x" views.htmlPage None] "x")
  <> invoked
       (resolve [path "x" views.htmlPage None; path "x" views.index None] "x").
Proof. discriminate. Qed.

(** ** General facts about the resolver *)

Section Resolver.

Variable p : string.

(** The entry returned is the first one that matches, whatever was
    tried before. *)
Lemma found_resolve_from (tried : list string) (t : list RouteEntry) :
  found (resolve_from tried t p) = find (matching p) t.
Proof.
  revert tried.
  induction t as [|e t IH]; intros tried; simpl.
  - reflexivity.
  - unfold matching at 1.
    destruct (route_match e p); [reflexivity | apply IH].
Qed.

Lemma found_resolve (t : list RouteEntry) :
  found (resolve t p) = find (matching p) t.
Proof. apply found_resolve_from. Qed.

(** On failure every pattern has been tried, in declaration order. *)
Lemma resolve_from_404 (tried : list string) (t : list RouteEntry) :
  find (matching p) t = None ->
  resolve_from tried t p = Resolver404 (tried ++ map pattern t).
Proof.
  revert tried.
  induction t as [|e t IH]; intros tried; simpl.
  - now rewrite app_nil_r.
  - unfold matching at 1.
    destruct (route_match e p); [discriminate |].
    intros H. rewrite (IH _ H), <- app_assoc. reflexivity.
Qed.

Lemma found_matches (t : list RouteEntry) (e : RouteEntry) :
  find (matching p) t = Some e -> In e t /\ pattern e = p.
Proof.
  intros H. apply find_some in H. destruct H as [Hin Hm].
  split; [exact Hin | now apply String.eqb_eq].
Qed.

Lemma found_iff_pattern_declared (t : list RouteEntry) :
  (exists e, find (matching p) t = Some e) <-> In p (map pattern t).
Proof.
  split.
  - intros [e H]. apply found_matches in H. destruct H as [Hin <-].
    now apply in_map.
  - intros H. apply in_map_iff in H. destruct H as [e [Hp Hin]].
    destruct (find (matching p) t) as [e'|] eqn:F; [now exists e' |].
    exfalso. pose proof (find_none _ _ F e Hin) as Hn.
    unfold matching, route_match in Hn. rewrite Hp, String.eqb_refl in Hn.
    discriminate.
Qed.

(** With pairwise distinct patterns, the entry found is the only one
    that carries the path. *)
Lemma find_unique_pattern (t : list RouteEntry) (e : RouteEntry) :
  NoDup (map pattern t) ->
  In e t -> pattern e = p -> find (matching p) t = Some e.
Proof.
  induction t as [|a t IH]; simpl; intros ND Hin Hp.
  - contradiction.
  - inversion ND as [|x l Hnotin ND']; subst x l.
    unfold matching at 1. unfold route_match.
    destruct (String.eqb_spec (pattern a) p) as [Ha|Ha].
    + destruct Hin as [->|Hin]; [reflexivity |].
      exfalso. apply Hnotin. rewrite Ha, <- Hp. now apply in_map.
    + destruct Hin as [->|Hin]; [contradiction |].
      now apply IH.
Qed.

Lemma find_permutation (t t' : list RouteEntry) :
  NoDup (map pattern t) -> Permutation t t' ->
  find (matching p) t' = find (matching p) t.
Proof.
  intros ND HP.
  assert (ND' : NoDup (map pattern t')).
  { eapply Permutation_NoDup; [apply Permutation_map; exact HP | exact ND]. }
  destruct (find (matching p) t) as [e|] eqn:F.
  - apply found_matches in F. destruct F as [Hin Hp].
    apply find_unique_pattern; [exact ND' | | exact Hp].
    eapply Permutation_in; eassumption.
  - destruct (find (matching p) t') as [e'|] eqn:F'; [| reflexivity].
    exfalso. apply found_matches in F'. destruct F' as [Hin Hp].
    assert (Hin' : In e' t).
    { eapply Permutation_in; [apply Permutation_sym; exact HP | exact Hin]. }
    pose proof (find_none _ _ F e' Hin') as Hn.
    unfold matching, route_match in Hn.
    rewrite Hp, String.eqb_refl in Hn. discriminate.
Qed.

(** The relation read off the spec and the loop select the same entry. *)
Lemma first_match_find (t : list RouteEntry) :
  FirstMatch t p (find (matching p) t).
Proof.
  induction t as [|a t IH]; simpl.
  - apply first_match_none. constructor.
  - unfold matching at 1. destruct (route_match a p) eqn:Ha.
    + apply (first_match_at _ _ [] t a); [reflexivity | constructor | exact Ha].
    + inversion IH as [before after e Ht Hb He Hr | Hall Hr].
      * apply (first_match_at _ _ (a :: before) after e).
        -- simpl. now rewrite <- Ht.
        -- now constructor.
        -- exact He.
      * apply first_match_none. now constructor.
Qed.

Lemma find_skips_non_matching (before rest : list RouteEntry) :
  Forall (fun e' => route_match e' p = false) before ->
  find (matching p) (before ++ rest) = find (matching p) rest.
Proof.
  induction 1 as [|a before Ha _ IH]; simpl; [reflexivity |].
  unfold matching at 1. now rewrite Ha.
Qed.

Lemma first_match_unique (t : list RouteEntry) (r : option RouteEntry) :
  FirstMatch t p r -> find (matching p) t = r.
Proof.
  intros [before after e Ht Hb He | Hall].
  - rewrite Ht, find_skips_non_matching by exact Hb.
    simpl. unfold matching. now rewrite He.
  - rewrite <- (app_nil_r t), find_skips_non_matching by exact Hall.
    reflexivity.
Qed.

End Resolver.

Lemma strip_prefix_app (pre s : string) :
  strip_prefix pre (pre ++ s)%string = Some s.
Proof.
  induction pre as [|a pre IH]; simpl; [reflexivity |].
  now rewrite Ascii.eqb_refl.
Qed.

Lemma strip_prefix_inv (pre s r : string) :
  strip_prefix pre s = Some r -> s = (pre ++ r)%string.
Proof.
  revert s. induction pre as [|a pre IH]; simpl; intros s H.
  - now inversion H.
  - destruct s as [|b s]; [discriminate |].
    destruct (Ascii.eqb_spec a b) as [->|]; [| discriminate].
    now rewrite (IH _ H).
Qed.

(** ** General facts about lookup by name *)

Lemma named_true (n : string) (e : RouteEntry) :
  named n e = true <-> name e = Some n.
Proof.
  unfold named. destruct (name e) as [m|].
  - rewrite String.eqb_eq. split; congruence.
  - split; discriminate.
Qed.

Section UniqueFind.

Context {A : Type} (f : A -> bool) (l : list A).

Hypothesis at_most_one :
  forall a b, In a l -> In b l -> f a = true -> f b = true -> a = b.

Lemma find_unique (x : A) : In x l -> f x = true -> find f l = Some x.
Proof.
  intros Hin Hf. destruct (find f l) as [y|] eqn:F.
  - apply find_some in F. destruct F as [Hy Hfy].
    f_equal. now apply at_most_one.
  - pose proof (find_none _ _ F x Hin). congruence.
Qed.

(** Scanning from the other end finds the same element. *)
Lemma find_rev_unique : find f (rev l) = find f l.
Proof.
  destruct (find f (rev l)) as [y|] eqn:F.
  - apply find_some in F. destruct F as [Hy Hfy].
    apply in_rev in Hy. symmetry. now apply find_unique.
  - destruct (find f l) as [x|] eqn:G; [| reflexivity].
    apply find_some in G. destruct G as [Hx Hfx].
    apply in_rev in Hx.
    pose proof (find_none _ _ F x Hx). congruence.
Qed.

End UniqueFind.

(** Every route of the table is literal, so [route_match] is the rule
    that applies to each of them. *)
Lemma urlpatterns_literal :
  Forall (fun e => has_converter (pattern e) = false) urlpatterns.
Proof. repeat constructor. Qed.

Lemma urlpatterns_patterns :
  map pattern urlpatterns = [""; "data-access3"; "html1"; "html2"].
Proof. reflexivity. Qed.

Lemma urlpatterns_patterns_distinct : NoDup (map pattern urlpatterns).
Proof.
  rewrite urlpatterns_patterns.
  repeat constructor; simpl; intuition discriminate.
Qed.

(** An entry of the table is one of the four declared ones. *)
Lemma in_urlpatterns (e : RouteEntry) :
  In e urlpatterns ->
  e = path "" views.index (Some "index") \/
  e = path "data-access3" test.dataRender3 (Some "index3") \/
  e = path "html1" views.htmlPage (Some "html_page2") \/
  e = path "html2" test.htmlPage2 (Some "html_page3").
Proof.
  unfold urlpatterns. simpl. intuition.
Qed.

(** Had line 7 been active, its path would reach [views.dataRender2]:
    the path is not found because the entry is absent. *)
Lemma disabled_entry_would_match :
  dispatch
    (path "" views.index (Some "index") :: disabled_entry :: tl urlpatterns)
    "/data-acces2" = Some views.dataRender2.
Proof. reflexivity. Qed.

(** ** Properties of the table *)

Ltac each_entry H :=
  apply in_urlpatterns in H;
  destruct H as [-> | [-> | [-> | ->]]].

(** C1.  Requesting a declared path calls the handler bound to it:
    [/] calls views.index, [/data-access3] calls test.dataRender3,
    [/html1] calls views.htmlPage, [/html2] calls test.htmlPage2; and so
    for every entry of the table at the path made of its own pattern. *)
Theorem declared_path_calls_bound_handler :
  dispatch urlpatterns "/" = Some views.index /\
  dispatch urlpatterns "/data-access3" = Some test.dataRender3 /\
  dispatch urlpatterns "/html1" = Some views.htmlPage /\
  dispatch urlpatterns "/html2" = Some test.htmlPage2 /\
  (forall e, In e urlpatterns ->
     dispatch urlpatterns (mount_prefix ++ pattern e)%string
     = Some (handler e)).
Proof.
  repeat split.
  intros e H. each_entry H; reflexivity.
Qed.

Lemma declared_path_calls_bound_handler_witness :
  dispatch urlpatterns
    (mount_prefix ++ pattern (path "html2" test.htmlPage2 (Some "html_page3")))%string
  = Some test.htmlPage2.
Proof.
  apply (proj2 (proj2 (proj2 (proj2 declared_path_calls_bound_handler)))).
  simpl. auto.
Defined.

(** C2.  The path [/data-acces2] of the commented-out line matches no
    entry: the resolver tries all four patterns and fails, no handler is
    called, and the entry of that line is not in the table. *)
Theorem disabled_path_is_not_found :
  dispatch urlpatterns "/data-acces2" = None /\
  resolve urlpatterns "data-acces2" = Resolver404 (map pattern urlpatterns) /\
  (forall e, In e urlpatterns -> route_match e "data-acces2" = false) /\
  ~ In disabled_entry urlpatterns /\
  ~ In (pattern disabled_entry) (map pattern urlpatterns).
Proof.
  split; [reflexivity |]. split; [reflexivity |]. split; [| split].
  - intros e H. each_entry H; reflexivity.
  - intros H. apply in_urlpatterns in H.
    destruct H as [H | [H | [H | H]]]; discriminate H.
  - rewrite urlpatterns_patterns. simpl. intuition discriminate.
Qed.

Lemma disabled_path_is_not_found_witness :
  route_match (path "data-access3" test.dataRender3 (Some "index3"))
    "data-acces2" = false.
Proof.
  apply (proj1 (proj2 (proj2 disabled_path_is_not_found))).
  simpl. auto.
Defined.

(** C3.  Reverse lookup sends each registered name to the literal path
    of its entry: index to the empty path, index3 to data-access3,
    html_page2 to html1, html_page3 to html2. *)
Theorem reverse_resolves_registered_names :
  reverse urlpatterns "index" = Some "" /\
  reverse urlpatterns "index3" = Some "data-access3" /\
  reverse urlpatterns "html_page2" = Some "html1" /\
  reverse urlpatterns "html_page3" = Some "html2".
Proof. repeat split. Qed.

(** C4.  The table is exactly the four entries
    ('', views.index, 'index'), ('data-access3', test.dataRender3, 'index3'),
    ('html1', views.htmlPage, 'html_page2'), ('html2', test.htmlPage2,
    'html_page3') in declaration order, and importing the module leaves
    that same table whatever was bound before. *)
Theorem urlpatterns_in_declaration_order :
  urlpatterns =
    [ {| pattern := ""; handler := views.index; name := Some "index" |};
      {| pattern := "data-access3"; handler := test.dataRender3;
         name := Some "index3" |};
      {| pattern := "html1"; handler := views.htmlPage;
         name := Some "html_page2" |};
      {| pattern := "html2"; handler := test.htmlPage2;
         name := Some "html_page3" |} ] /\
  length urlpatterns = 4 /\
  (forall s1 s2 : store,
     snd (import_urls s1) = urlpatterns /\
     snd (import_urls s1) = snd (import_urls s2)).
Proof.
  split; [reflexivity |]. split; [reflexivity |].
  intros s1 s2. split; reflexivity.
Qed.

(** C5.  For every table and request path the resolver selects the first
    entry, in declaration order, whose pattern matches, and calls its
    handler; when no entry matches nothing is selected and no handler is
    called. *)
Theorem resolver_selects_first_match :
  forall (table : list RouteEntry) (p : string),
    FirstMatch table p (found (resolve table p)) /\
    (forall r, FirstMatch table p r ->
       found (resolve table p) = r /\
       invoked (resolve table p) = option_map handler r) /\
    (FirstMatch table p None ->
       resolve table p = Resolver404 (map pattern table) /\
       dispatch table (mount_prefix ++ p)%string = None).
Proof.
  intros table p. split; [| split].
  - rewrite found_resolve. apply first_match_find.
  - intros r H. apply first_match_unique in H.
    unfold invoked. rewrite found_resolve, H. split; reflexivity.
  - intros H. apply first_match_unique in H.
    unfold dispatch. rewrite strip_prefix_app.
    unfold resolve. rewrite (resolve_from_404 p [] table H).
    split; reflexivity.
Qed.

Lemma resolver_selects_first_match_witness :
  found (resolve urlpatterns "html1")
    = Some (path "html1" views.htmlPage (Some "html_page2")) /\
  invoked (resolve urlpatterns "html1") = Some views.htmlPage.
Proof.
  apply (proj1 (proj2 (resolver_selects_first_match urlpatterns "html1"))
           (Some (path "html1" views.htmlPage (Some "html_page2")))).
  apply (first_match_at urlpatterns "html1"
           [path "" views.index (Some "index");
            path "data-access3" test.dataRender3 (Some "index3")]
           [path "html2" test.htmlPage2 (Some "html_page3")]).
  - reflexivity.
  - repeat constructor.
  - reflexivity.
Defined.

(** C6.  Names are unique in the table: the registered names are index,
    index3, html_page2 and html_page3, no two entries share one, each is
    carried by exactly one entry, and reverse lookup gives the same
    answer whichever end of the table it scans from. *)
Theorem route_names_are_unique :
  map name urlpatterns =
    [Some "index"; Some "index3"; Some "html_page2"; Some "html_page3"] /\
  NoDup (map name urlpatterns) /\
  (forall n, In (Some n) (map name urlpatterns) ->
     length (filter (named n) urlpatterns) = 1) /\
  (forall e1 e2 n, In e1 urlpatterns -> In e2 urlpatterns ->
     name e1 = Some n -> name e2 = Some n -> e1 = e2) /\
  (forall n, reverse urlpatterns n = reverse_first urlpatterns n).
Proof.
  split; [reflexivity |]. split; [| split; [| split]].
  - simpl. repeat constructor; simpl; intuition discriminate.
  - intros n H. simpl in H.
    destruct H as [H | [H | [H | [H | []]]]]; inversion H; reflexivity.
  - intros e1 e2 n H1 H2 N1 N2.
    each_entry H1; each_entry H2; simpl in N1, N2;
      first [reflexivity | congruence].
  - intros n. unfold reverse, reverse_first. f_equal.
    apply find_rev_unique.
    intros a b Ha Hb Na Nb. apply named_true in Na, Nb.
    each_entry Ha; each_entry Hb; simpl in Na, Nb;
      first [reflexivity | congruence].
Qed.

Lemma route_names_are_unique_witness :
  length (filter (named "html_page2") urlpatterns) = 1.
Proof.
  apply (proj1 (proj2 (proj2 route_names_are_unique)) "html_page2").
  simpl. auto.
Defined.

(** C8.  The four patterns are pairwise distinct, so scanning any
    permutation of the table selects the same entry and calls the same
    handler as scanning the table itself, or fails when the table does. *)
Theorem dispatch_is_order_insensitive :
  forall table' : list RouteEntry,
    Permutation urlpatterns table' ->
    forall p : string,
      found (resolve table' p) = found (resolve urlpatterns p) /\
      invoked (resolve table' p) = invoked (resolve urlpatterns p) /\
      dispatch table' p = dispatch urlpatterns p.
Proof.
  intros table' HP.
  assert (F : forall q, found (resolve table' q) = found (resolve urlpatterns q)).
  { intros q. rewrite !found_resolve.
    apply find_permutation; [apply urlpatterns_patterns_distinct | exact HP]. }
  intros p. split; [apply F |]. split.
  - unfold invoked. now rewrite F.
  - unfold dispatch. destruct (strip_prefix mount_prefix p) as [q|];
      [| reflexivity].
    unfold invoked. now rewrite F.
Qed.

Lemma dispatch_is_order_insensitive_witness :
  Permutation urlpatterns (rev urlpatterns) /\
  dispatch (rev urlpatterns) "/html1" = dispatch urlpatterns "/html1".
Proof.
  split.
  - apply Permutation_rev.
  - apply (dispatch_is_order_insensitive (rev urlpatterns)
             (Permutation_rev urlpatterns) "/html1").
Defined.

(** C9.  Every entry of the table has a name; reverse lookup of that
    name gives the entry's pattern, and resolving that pattern selects
    the same entry and calls its handler; the same round trip holds
    through the URL that reverse lookup hands back. *)
Theorem reverse_then_dispatch_round_trip :
  Forall (fun e => name e <> None) urlpatterns /\
  (forall e, In e urlpatterns ->
     exists n,
       name e = Some n /\
       reverse urlpatterns n = Some (pattern e) /\
       found (resolve urlpatterns (pattern e)) = Some e /\
       invoked (resolve urlpatterns (pattern e)) = Some (handler e) /\
       exists u,
         reverse_url urlpatterns n = Some u /\
         dispatch urlpatterns u = Some (handler e)).
Proof.
  split.
  - repeat constructor; discriminate.
  - intros e H.
    each_entry H; eexists; repeat split; eexists; split; reflexivity.
Qed.

Lemma reverse_then_dispatch_round_trip_witness :
  exists n,
    name (path "data-access3" test.dataRender3 (Some "index3")) = Some n /\
    reverse urlpatterns n = Some "data-access3" /\
    found (resolve urlpatterns "data-access3")
      = Some (path "data-access3" test.dataRender3 (Some "index3")) /\
    invoked (resolve urlpatterns "data-access3") = Some test.dataRender3 /\
    exists u,
      reverse_url urlpatterns n = Some u /\
      dispatch urlpatterns u = Some test.dataRender3.
Proof.
  apply (proj2 reverse_then_dispatch_round_trip
           (path "data-access3" test.dataRender3 (Some "index3"))).
  simpl. auto.
Defined.

(** C10.  Resolving a path calls a handler exactly when the path is one
    of the four literals '', 'data-access3', 'html1', 'html2'; any other
    path (a prefix, an extension or a case variant of a literal
    included) is not found after all four patterns were tried.  At the
    request level the same holds with the leading slash. *)
Theorem dispatch_found_iff_declared_literal :
  (forall p : string,
     (exists v, invoked (resolve urlpatterns p) = Some v) <->
     In p [""; "data-access3"; "html1"; "html2"]) /\
  (forall p : string,
     ~ In p [""; "data-access3"; "html1"; "html2"] ->
     resolve urlpatterns p
       = Resolver404 [""; "data-access3"; "html1"; "html2"] /\
     invoked (resolve urlpatterns p) = None) /\
  (forall request_path : string,
     (exists v, dispatch urlpatterns request_path = Some v) <->
     In request_path ["/"; "/data-access3"; "/html1"; "/html2"]) /\
  (forall request_path : string,
     ~ In request_path ["/"; "/data-access3"; "/html1"; "/html2"] ->
     dispatch urlpatterns request_path = None).
Proof.
  assert (A : forall p,
             (exists v, invoked (resolve urlpatterns p) = Some v) <->
             In p [""; "data-access3"; "html1"; "html2"]).
  { intros p. rewrite <- urlpatterns_patterns,
      <- (found_iff_pattern_declared p urlpatterns).
    unfold invoked. rewrite found_resolve. split.
    - intros [v H].
      destruct (find (matching p) urlpatterns) as [e|];
        [now exists e | discriminate].
    - intros [e H]. exists (handler e). now rewrite H. }
  assert (B : forall q,
             (exists v, dispatch urlpatterns q = Some v) <->
             In q ["/"; "/data-access3"; "/html1"; "/html2"]).
  { intros q. split.
    - intros [v H]. unfold dispatch in H.
      destruct (strip_prefix mount_prefix q) as [p|] eqn:E; [| discriminate].
      apply strip_prefix_inv in E. subst q.
      assert (Hp : In p [""; "data-access3"; "html1"; "html2"]).
      { apply A. now exists v. }
      simpl in Hp.
      destruct Hp as [<- | [<- | [<- | [<- | []]]]]; simpl; auto.
    - simpl.
      intros [<- | [<- | [<- | [<- | []]]]]; eexists; reflexivity. }
  split; [exact A |]. split; [| split; [exact B |]].
  - intros p Hn.
    assert (N : found (resolve urlpatterns p) = None).
    { destruct (found (resolve urlpatterns p)) as [e|] eqn:F;
        [| reflexivity].
      exfalso. apply Hn, A. exists (handler e). unfold invoked.
      now rewrite F. }
    split.
    + rewrite found_resolve in N. unfold resolve.
      now rewrite (resolve_from_404 p [] urlpatterns N).
    + unfold invoked. now rewrite N.
  - intros q Hn.
    destruct (dispatch urlpatterns q) as [v|] eqn:D; [| reflexivity].
    exfalso. apply Hn, B. now exists v.
Qed.

Lemma dispatch_found_iff_declared_literal_witness :
  resolve urlpatterns "HTML1"
    = Resolver404 [""; "data-access3"; "html1"; "html2"] /\
  invoked (resolve urlpatterns "HTML1") = None.
Proof.
  apply (proj1 (proj2 dispatch_found_iff_declared_literal) "HTML1").
  simpl. intuition discriminate.
Defined.

(** ** Further properties of the table *)

Lemma find_named_iff (n : string) (l : list RouteEntry) :
  (exists e, find (named n) l = Some e) <-> In (Some n) (map name l).
Proof.
  split.
  - intros [e H]. apply find_some in H. destruct H as [Hin Hn].
    apply named_true in Hn. rewrite <- Hn. now apply in_map.
  - intros H. apply in_map_iff in H. destruct H as [e [Hn Hin]].
    destruct (find (named n) l) as [e'|] eqn:F; [now exists e' |].
    pose proof (find_none _ _ F e Hin) as Hf.
    apply named_true in Hn. congruence.
Qed.

(** What a request reaches is an entry of the table that carries the
    path left after the mount prefix. *)
Lemma dispatch_reaches_entry (t : list RouteEntry) (request_path : string)
    (v : view) :
  dispatch t request_path = Some v ->
  exists e, In e t /\ handler e = v /\
            request_path = (mount_prefix ++ pattern e)%string.
Proof.
  unfold dispatch. intros H.
  destruct (strip_prefix mount_prefix request_path) as [q|] eqn:E;
    [| discriminate].
  apply strip_prefix_inv in E.
  unfold invoked in H. rewrite found_resolve in H.
  destruct (find (matching q) t) as [e|] eqn:F; [| discriminate].
  apply found_matches in F. destruct F as [Hin Hp].
  exists e. simpl in H. inversion H. subst. auto.
Qed.

(** X1.  Reverse lookup over the table succeeds exactly for the four
    registered names index, index3, html_page2 and html_page3; for any
    other name (index2 of the commented-out line included) neither a
    route nor a URL is produced. *)
Theorem reverse_succeeds_iff_registered_name :
  (forall n : string,
     (exists r, reverse urlpatterns n = Some r) <->
     In n ["index"; "index3"; "html_page2"; "html_page3"]) /\
  (forall n : string,
     ~ In n ["index"; "index3"; "html_page2"; "html_page3"] ->
     reverse urlpatterns n = None /\ reverse_url urlpatterns n = None).
Proof.
  assert (A : forall n,
             (exists r, reverse urlpatterns n = Some r) <->
             In n ["index"; "index3"; "html_page2"; "html_page3"]).
  { intros n. unfold reverse. split.
    - intros [r H].
      destruct (find (named n) (rev urlpatterns)) as [e|] eqn:F;
        [| discriminate].
      apply find_some in F. destruct F as [Hin Hn].
      apply in_rev in Hin. apply named_true in Hn.
      each_entry Hin; simpl in Hn; inversion Hn; simpl; auto.
    - intros H.
      assert (Hn : In (Some n) (map name (rev urlpatterns))).
      { simpl in *. intuition (subst; auto). }
      apply find_named_iff in Hn. destruct Hn as [e He].
      exists (pattern e). now rewrite He. }
  split; [exact A |].
  intros n Hn.
  assert (R : reverse urlpatterns n = None).
  { destruct (reverse urlpatterns n) as [r|] eqn:E; [| reflexivity].
    exfalso. apply Hn, A. now exists r. }
  split; [exact R |]. unfold reverse_url. now rewrite R.
Qed.

Lemma reverse_succeeds_iff_registered_name_witness :
  reverse urlpatterns "index2" = None /\
  reverse_url urlpatterns "index2" = None.
Proof.
  apply (proj2 reverse_succeeds_iff_registered_name "index2").
  simpl. intuition discriminate.
Defined.

(** X2.  Every request the table serves can be regenerated from a name:
    when a request path is dispatched to a view, that view is the
    handler of an entry of the table whose name reverses to exactly the
    request path. *)
Theorem dispatch_then_reverse_round_trip :
  forall (request_path : string) (v : view),
    dispatch urlpatterns request_path = Some v ->
    exists e n,
      In e urlpatterns /\ handler e = v /\ name e = Some n /\
      reverse_url urlpatterns n = Some request_path.
Proof.
  intros q v H. apply dispatch_reaches_entry in H.
  destruct H as [e [Hin [Hv Hq]]]. subst q v.
  exists e.
  pose proof Hin as Hin'.
  each_entry Hin; eexists; (split; [exact Hin' |]); repeat split.
Qed.

Lemma dispatch_then_reverse_round_trip_witness :
  exists e n,
    In e urlpatterns /\ handler e = views.htmlPage /\ name e = Some n /\
    reverse_url urlpatterns n = Some "/html1".
Proof.
  apply (dispatch_then_reverse_round_trip "/html1" views.htmlPage).
  reflexivity.
Defined.

(** X3.  The view named on the commented-out line is unreachable: no
    request path at all is dispatched to views.dataRender2, and whatever
    view a request reaches is one of the four bound in the table. *)
Theorem disabled_view_is_never_called :
  (forall request_path : string,
     dispatch urlpatterns request_path <> Some views.dataRender2) /\
  (forall (request_path : string) (v : view),
     dispatch urlpatterns request_path = Some v ->
     In v [views.index; test.dataRender3; views.htmlPage; test.htmlPage2]).
Proof.
  assert (B : forall q v, dispatch urlpatterns q = Some v ->
              In v [views.index; test.dataRender3; views.htmlPage;
                    test.htmlPage2]).
  { intros q v H. apply dispatch_reaches_entry in H.
    destruct H as [e [Hin [Hv _]]]. subst v.
    each_entry Hin; simpl; auto. }
  split; [| exact B].
  intros q H. apply B in H. simpl in H.
  destruct H as [H | [H | [H | [H | []]]]]; discriminate H.
Qed.

Lemma disabled_view_is_never_called_witness :
  In views.htmlPage
    [views.index; test.dataRender3; views.htmlPage; test.htmlPage2].
Proof.
  apply (proj2 disabled_view_is_never_called "/html1" views.htmlPage).
  reflexivity.
Defined.
